(** * Obesity-visualization: the aggregation core of [viz.py]

    [viz.py] reads three cleaned survey tables with pandas, collapses repeated
    observations with a sample-size weighted mean, and hands three declarative
    Altair charts to the Vega-Lite renderer.  This development embeds

    - the pandas steps the builders perform ([pd.to_numeric], [dropna],
      [groupby(...).apply(weighted_mean)], [Series.map], [pd.merge]),
    - [weighted_mean] itself, and
    - the data flow the charts declare ([mean(Data_Value)] per year, the
      geographic lookup, the filter on the hover selection),

    over an interface of numbers with two instances: IEEE binary64, which is
    what pandas computes with, and exact rationals extended with a missing
    value, which is what the formulas mean over the reals. *)

From Stdlib Require Import ZArith QArith Qcanon Floats Uint63 Strings.String.
From stdpp Require Import base numbers list strings gmap sorting.

Set Warnings "-inexact-float".

(** ** Numbers *)

(** The arithmetic a column of numbers supports.  [nan] is pandas' missing
    value and [isna] its test ([pd.isna]). *)
Class Number (A : Type) := {
  nzero : A;
  nan : A;
  nadd : A -> A -> A;
  nsub : A -> A -> A;
  nmul : A -> A -> A;
  ndiv : A -> A -> A;
  of_count : nat -> A;
  isna : A -> bool }.

(** float64, the dtype of [Data_Value] and of a coerced [Sample_Size]. *)
#[global] Instance binary64 : Number float := {|
  nzero := 0%float;
  nan := PrimFloat.nan;
  nadd := PrimFloat.add;
  nsub := PrimFloat.sub;
  nmul := PrimFloat.mul;
  ndiv := PrimFloat.div;
  of_count n := PrimFloat.of_uint63 (Uint63.of_Z (Z.of_nat n));
  isna := PrimFloat.is_nan |}.

(** Exact arithmetic: a rational, or [None] for a value that is missing or
    undefined.  Missing operands propagate, and so does a division by zero. *)
Definition lift2 (f : Qc -> Qc -> Qc) (x y : option Qc) : option Qc :=
  match x, y with
  | Some a, Some b => Some (f a b)
  | _, _ => None
  end.

Definition exact_div (x y : option Qc) : option Qc :=
  match x, y with
  | Some a, Some b => if decide (b = 0%Qc) then None else Some (a / b)%Qc
  | _, _ => None
  end.

#[global] Instance exact : Number (option Qc) := {|
  nzero := Some 0%Qc;
  nan := None;
  nadd := lift2 Qcplus;
  nsub := lift2 Qcminus;
  nmul := lift2 Qcmult;
  ndiv := exact_div;
  of_count n := Some (Qc_of_Z (Z.of_nat n));
  isna x := if x is None then true else false |}.

(** ** pandas: Series and DataFrame steps *)

(** [Series.sum()]: missing entries are skipped ([skipna=True]); the sum of
    nothing is zero. *)
Definition Series_sum `{Number A} (s : list A) : A :=
  fold_left nadd (List.filter (fun x => negb (isna x)) s) nzero.

(** [x * w] on two columns of one frame: entry by entry. *)
Definition Series_mul `{Number A} (x w : list A) : list A :=
  zip_with nmul x w.

(** A row of table B or C.  [W] is what the [Sample_Size] column holds: raw
    cells as read from the file, or numbers once coerced. *)
Record obs (A W : Type) := Obs {
  YearStart : Z;
  Stratification1 : string;
  Data_Value : A;
  Sample_Size : W }.
Arguments Obs {A W}.
Arguments YearStart {A W}.
Arguments Stratification1 {A W}.
Arguments Data_Value {A W}.
Arguments Sample_Size {A W}.

(** A raw cell: a number (possibly missing), or text that does not read as one. *)
Inductive cell (A : Type) :=
  | number (x : A)
  | text (s : string).
Arguments number {A}.
Arguments text {A}.

(** [pd.to_numeric(..., errors="coerce")]. *)
Definition to_numeric_coerce `{Number A} (c : cell A) : A :=
  match c with
  | number x => x
  | text _ => nan
  end.

(** [df["Sample_Size"] = pd.to_numeric(df["Sample_Size"], errors="coerce")]. *)
Definition coerce_Sample_Size `{Number A} (df : list (obs A (cell A))) : list (obs A A) :=
  (fun r => Obs (YearStart r) (Stratification1 r) (Data_Value r)
                (to_numeric_coerce (Sample_Size r))) <$> df.

Definition notna_both `{Number A} (r : obs A A) : bool :=
  negb (isna (Sample_Size r)) && negb (isna (Data_Value r)).

(** [df.dropna(subset=["Sample_Size", "Data_Value"])]. *)
Definition dropna `{Number A} (df : list (obs A A)) : list (obs A A) :=
  filter (fun r => notna_both r) df.

(** The two lines every sample-size builder starts with. *)
Definition clean `{Number A} (df : list (obs A (cell A))) : list (obs A A) :=
  dropna (coerce_Sample_Size df).

(** *** groupby(["YearStart", "Stratification1"]) *)

Definition key : Type := Z * string.

Definition obs_key {A W} (r : obs A W) : key :=
  (YearStart r, Stratification1 r).

(** Group keys come out sorted: by year, then by category as strings. *)
Definition key_leb (a b : key) : bool :=
  (a.1 <? b.1)%Z || ((a.1 =? b.1)%Z && String.leb a.2 b.2).

Definition key_le (a b : key) : Prop := key_leb a b = true.

#[global] Instance key_le_dec : RelDecision key_le :=
  fun a b => decide (key_leb a b = true).

Definition group_keys {A W} (df : list (obs A W)) : list key :=
  merge_sort key_le (remove_dups (obs_key <$> df)).

Definition get_group {A W} (k : key) (df : list (obs A W)) : list (obs A W) :=
  filter (fun r => obs_key r = k) df.

(** [df.groupby([...]).apply(f).reset_index(name=...)]: one row per key, the
    key columns followed by what [f] returns on the key's rows. *)
Definition groupby_apply {A W B} (f : list (obs A W) -> B) (df : list (obs A W))
  : list (key * B) :=
  (fun k => (k, f (get_group k df))) <$> group_keys df.

(** ** The weighted aggregator *)

(** [weighted_mean(group)], with the default columns:
    [(x * w).sum() / w.sum()]. *)
Definition weighted_mean `{Number A} (group : list (obs A A)) : A :=
  let w := Sample_Size <$> group in
  let x := Data_Value <$> group in
  ndiv (Series_sum (Series_mul x w)) (Series_sum w).

(** An aggregated point: a (year, category) key and its rate. *)
Record point (A : Type) := Point {
  pt_year : Z;
  pt_category : string;
  pt_rate : A }.
Arguments Point {A}.
Arguments pt_year {A}.
Arguments pt_category {A}.
Arguments pt_rate {A}.

(** [df.groupby(["YearStart", "Stratification1"]).apply(weighted_mean)
       .reset_index(name=...)]. *)
Definition aggregate `{Number A} (df : list (obs A A)) : list (point A) :=
  (fun kv : key * A => Point kv.1.1 kv.1.2 kv.2) <$> groupby_apply weighted_mean df.

(** ** Viz 1: the age heatmap *)

(** [df_nat] of [make_age_heatmap]: columns year, age_group, obesity_rate. *)
Definition df_nat `{Number A} (df_age : list (obs A (cell A))) : list (point A) :=
  aggregate (clean df_age).

(** The y axis' sort order. *)
Definition age_order : list string :=
  ["18 - 24"; "25 - 34"; "35 - 44"; "45 - 54"; "55 - 64"; "65 or older"].

(** ** Viz 2: national trend and map, linked by the hovered year *)

(** A row of table A.  Its [YearStart] and [Data_Value] columns carry the
    prefix [m_] to tell them from those of tables B and C. *)
Record map_row (A : Type) := MapRow {
  m_YearStart : Z;
  LocationAbbr : string;
  LocationDesc : string;
  m_Data_Value : A }.
Arguments MapRow {A}.
Arguments m_YearStart {A}.
Arguments LocationAbbr {A}.
Arguments LocationDesc {A}.
Arguments m_Data_Value {A}.

(** The selection [hover_year]: empty, or holding the [YearStart] of the
    nearest point under the pointer. *)
Definition selection : Type := option Z.

(** The predicate a selection on [fields=["YearStart"]] stands for.  With
    [empty="none"] an empty selection selects nothing. *)
Definition selected (hover_year : selection) (year : Z) : bool :=
  match hover_year with
  | None => false
  | Some y => bool_decide (year = y)
  end.

(** The renderer's [mean] aggregate: a running mean over the valid entries,
    undefined when there is none. *)
Definition mean_step `{Number A} (acc : A * nat) (v : A) : A * nat :=
  if isna v then acc
  else let valid := S acc.2 in
       (nadd acc.1 (ndiv (nsub v acc.1) (of_count valid)), valid).

Definition vega_mean `{Number A} (vs : list A) : A :=
  let acc := fold_left mean_step vs (nzero, 0%nat) in
  if acc.2 is O then nan else acc.1.

Definition rows_of_year {A} (y : Z) (df_map : list (map_row A)) : list (map_row A) :=
  filter (fun r => m_YearStart r = y) df_map.

(** [base_trend]: x is [YearStart:O], y is [mean(Data_Value):Q]; one point per
    year of the table, over that year's raw rows. *)
Definition base_trend `{Number A} (df_map : list (map_row A)) : list (Z * A) :=
  (fun y => (y, vega_mean (m_Data_Value <$> rows_of_year y df_map)))
    <$> remove_dups (m_YearStart <$> df_map).

(** The static table from region abbreviation to numeric identifier. *)
Definition state_id_map : gmap string Z :=
  list_to_map
    [("AL", 1); ("AK", 2); ("AZ", 4); ("AR", 5); ("CA", 6); ("CO", 8);
     ("CT", 9); ("DE", 10); ("FL", 12); ("GA", 13); ("HI", 15); ("ID", 16);
     ("IL", 17); ("IN", 18); ("IA", 19); ("KS", 20); ("KY", 21); ("LA", 22);
     ("ME", 23); ("MD", 24); ("MA", 25); ("MI", 26); ("MN", 27); ("MS", 28);
     ("MO", 29); ("MT", 30); ("NE", 31); ("NV", 32); ("NH", 33); ("NJ", 34);
     ("NM", 35); ("NY", 36); ("NC", 37); ("ND", 38); ("OH", 39); ("OK", 40);
     ("OR", 41); ("PA", 42); ("RI", 44); ("SC", 45); ("SD", 46); ("TN", 47);
     ("TX", 48); ("UT", 49); ("VT", 50); ("VA", 51); ("WA", 53); ("WV", 54);
     ("WI", 55); ("WY", 56); ("DC", 11)]%Z.

(** A datum of the map layer: the table row, its [id] column, and what the
    lookup attached to it. *)
Record map_datum (A G : Type) := MapDatum {
  d_row : map_row A;
  d_id : option Z;
  d_geometry : option G }.
Arguments MapDatum {A G}.
Arguments d_row {A G}.
Arguments d_id {A G}.
Arguments d_geometry {A G}.

(** [df_map["id"] = df_map["LocationAbbr"].map(state_id_map)]: an
    abbreviation the table does not know gets a missing id, not an error. *)
Definition with_id {A} (df_map : list (map_row A)) : list (map_row A * option Z) :=
  (fun r => (r, state_id_map !! LocationAbbr r)) <$> df_map.

(** [transform_lookup(lookup="id", from_=LookupData(states, key="id", ...))]:
    [states] is the boundary data set keyed by id; every datum is kept, and
    one whose id finds no feature gets no geometry. *)
Definition transform_lookup {A G} (states : gmap Z G)
    (data : list (map_row A * option Z)) : list (map_datum A G) :=
  (fun d : map_row A * option Z => MapDatum d.1 d.2 (d.2 ≫= (states !!.))) <$> data.

(** [transform_filter(hover_year)]. *)
Definition transform_filter {A G} (hover_year : selection)
    (data : list (map_datum A G)) : list (map_datum A G) :=
  filter (fun d => selected hover_year (m_YearStart (d_row d))) data.

(** The data of [bottom_map] under a selection state. *)
Definition bottom_map {A G} (states : gmap Z G) (df_map : list (map_row A))
    (hover_year : selection) : list (map_datum A G) :=
  transform_filter hover_year (transform_lookup states (with_id df_map)).

(** [mark_geoshape]: one shape per datum that carries a geometry. *)
Definition geoshapes {A G} (data : list (map_datum A G)) : list (map_datum A G) :=
  filter (fun d => is_Some (d_geometry d)) data.

(** The regions the map shows. *)
Definition rendered_regions {A G} (states : gmap Z G) (df_map : list (map_row A))
    (hover_year : selection) : list string :=
  (fun d => LocationAbbr (d_row d)) <$> geoshapes (bottom_map states df_map hover_year).

(** ** Viz 3: income trend and growth since 2011 *)

(** A row of the merged frame: the aggregated point, its baseline and growth. *)
Record growth_row (A : Type) := GrowthRow {
  g_point : point A;
  Base_2011 : A;
  Growth : A }.
Arguments GrowthRow {A}.
Arguments g_point {A}.
Arguments Base_2011 {A}.
Arguments Growth {A}.

(** [df_inc_agg] as first assigned: the weighted rate per (year, income band). *)
Definition df_inc_agg `{Number A} (df_income_raw : list (obs A (cell A))) : list (point A) :=
  aggregate (clean df_income_raw).

(** [base_2011]: the 2011 rows, reduced to category and rate. *)
Definition base_2011 {A} (agg : list (point A)) : list (string * A) :=
  (fun p => (pt_category p, pt_rate p)) <$> filter (fun p => pt_year p = 2011%Z) agg.

(** [pd.merge(left, right, on="Stratification1", how="left")]: every left row,
    once per matching right row, and once with a missing value when no right
    row matches. *)
Definition merge_left `{Number A} (left : list (point A)) (right : list (string * A))
  : list (point A * A) :=
  left ≫= fun p =>
    match filter (fun b : string * A => b.1 = pt_category p) right with
    | [] => [(p, nan)]
    | matches => (fun b : string * A => (p, b.2)) <$> matches
    end.

(** [df_inc_agg] as the charts receive it: merged with the baseline, with
    [Growth = Data_Value - Base_2011]. *)
Definition df_inc_growth `{Number A} (df_income_raw : list (obs A (cell A)))
  : list (growth_row A) :=
  let agg := df_inc_agg df_income_raw in
  (fun pb : point A * A => GrowthRow pb.1 pb.2 (nsub (pt_rate pb.1) pb.2))
    <$> merge_left agg (base_2011 agg).

(** ** Vocabulary of the statements *)

(** A row whose value and weight are both present, in exact arithmetic. *)
Definition exact_row (r : obs Qc Qc) : obs (option Qc) (option Qc) :=
  Obs (YearStart r) (Stratification1 r) (Some (Data_Value r)) (Some (Sample_Size r)).

Definition Qc_sum (l : list Qc) : Qc := foldr Qcplus 0%Qc l.

(** Numerator and denominator of the weighted mean, over the rationals. *)
Definition weighted_total (g : list (obs Qc Qc)) : Qc :=
  Qc_sum ((fun r => Data_Value r * Sample_Size r)%Qc <$> g).

Definition total_weight (g : list (obs Qc Qc)) : Qc :=
  Qc_sum (Sample_Size <$> g).

Definition Qc_min (a b : Qc) : Qc := if decide (a ≤ b)%Qc then a else b.
Definition Qc_max (a b : Qc) : Qc := if decide (a ≤ b)%Qc then b else a.

(** Smallest and largest value of a group; an empty group has neither. *)
Definition min_value (g : list (obs Qc Qc)) : option Qc :=
  match Data_Value <$> g with
  | [] => None
  | v :: vs => Some (foldr Qc_min v vs)
  end.

Definition max_value (g : list (obs Qc Qc)) : option Qc :=
  match Data_Value <$> g with
  | [] => None
  | v :: vs => Some (foldr Qc_max v vs)
  end.

(** Every sample size of a group multiplied by [c]. *)
Definition scale_weights `{Number A} (c : A) (g : list (obs A A)) : list (obs A A) :=
  (fun r => Obs (YearStart r) (Stratification1 r) (Data_Value r) (nmul c (Sample_Size r))) <$> g.


(** The key columns of an aggregated row. *)
Definition point_key {A} (p : point A) : key := (pt_year p, pt_category p).

(** ** The layers that read the selection *)

(** [points]: the trend's points, one per year, drawn with opacity
    [alt.condition(hover_year, alt.value(1), alt.value(0))]. *)
Definition points `{Number A} (hover_year : selection) (df_map : list (map_row A))
  : list (Z * A * nat) :=
  (fun pt : Z * A => (pt, if selected hover_year pt.1 then 1%nat else 0%nat))
    <$> base_trend df_map.

(** What a text mark writes: a number, or the blank string [" "]. *)
Inductive label (A : Type) :=
  | shown (m : A)
  | blank.
Arguments shown {A}.
Arguments blank {A}.

(** [text] of [make_trend_and_map] (named [trend_text] here, [text] being a
    kind of cell): [alt.condition(hover_year, "mean(Data_Value):Q",
    alt.value(" "))] on the trend's points. *)
Definition trend_text `{Number A} (hover_year : selection) (df_map : list (map_row A))
  : list (Z * label A) :=
  (fun pt : Z * A => (pt.1, if selected hover_year pt.1 then shown pt.2 else blank))
    <$> base_trend df_map.

(** [rule]: a vertical rule at the [YearStart] of every row of the table that
    passes [transform_filter(hover_year)]. *)
Definition rule {A} (hover_year : selection) (df_map : list (map_row A)) : list Z :=
  m_YearStart <$> filter (fun r => selected hover_year (m_YearStart r)) df_map.



(** * Properties *)

(** ** Grouping *)

Section grouping.
Context {A W : Type}.
Implicit Types (df : list (obs A W)) (k : key).

Lemma elem_of_group_keys df k :
  k ∈ group_keys df <-> exists r, r ∈ df /\ obs_key r = k.
Proof.
  unfold group_keys. rewrite merge_sort_Permutation, elem_of_remove_dups.
  rewrite list_elem_of_fmap. split.
  - intros (r & -> & Hr). by exists r.
  - intros (r & Hr & <-). by exists r.
Qed.

Lemma NoDup_group_keys df : NoDup (group_keys df).
Proof.
  unfold group_keys. rewrite merge_sort_Permutation. apply NoDup_remove_dups.
Qed.

Lemma elem_of_get_group k df r :
  r ∈ get_group k df <-> r ∈ df /\ obs_key r = k.
Proof. unfold get_group. rewrite list_elem_of_filter. tauto. Qed.


Lemma groupby_apply_keys {B} (f : list (obs A W) -> B) df :
  (groupby_apply f df).*1 = group_keys df.
Proof.
  unfold groupby_apply. rewrite <- list_fmap_compose.
  etrans; [|apply list_fmap_id]. by apply list_fmap_ext.
Qed.
End grouping.

(** ** Aggregated points *)

Section aggregated.
Context `{Number A}.
Implicit Types (df : list (obs A A)) (p : point A).

Lemma elem_of_aggregate df p :
  p ∈ aggregate df <->
  (exists r, r ∈ df /\ obs_key r = point_key p) /\
  pt_rate p = weighted_mean (get_group (point_key p) df).
Proof.
  unfold aggregate, groupby_apply.
  rewrite <- list_fmap_compose, list_elem_of_fmap. split.
  - intros (k & -> & Hk%elem_of_group_keys). by destruct k.
  - intros [Hk%elem_of_group_keys Hrate]. exists (point_key p).
    split; [|done]. destruct p as [y c v]; simpl in *. by rewrite Hrate.
Qed.

(** A frame produced by the aggregator has one row per key. *)
Lemma aggregate_key_inj df p q :
  p ∈ aggregate df -> q ∈ aggregate df -> point_key p = point_key q -> p = q.
Proof.
  intros [_ Hp]%elem_of_aggregate [_ Hq]%elem_of_aggregate Hk.
  rewrite Hk in Hp. rewrite <- Hq in Hp.
  destruct p, q; unfold point_key in Hk; simpl in *. congruence.
Qed.

Lemma aggregate_keys df : point_key <$> aggregate df = group_keys df.
Proof.
  unfold aggregate. rewrite <- list_fmap_compose.
  rewrite <- (groupby_apply_keys weighted_mean df).
  apply list_fmap_ext. by intros _ [[y c] v] _.
Qed.

Lemma NoDup_aggregate df : NoDup (aggregate df).
Proof.
  apply (NoDup_fmap_1 point_key). rewrite aggregate_keys. apply NoDup_group_keys.
Qed.
End aggregated.

(** ** C1: the aggregator *)


(** ** C8: age bands of the heatmap *)

Lemma elem_of_aggregate_categories `{Number A} (df : list (obs A A)) (c : string) :
  c ∈ pt_category <$> aggregate df <-> exists r, r ∈ df /\ Stratification1 r = c.
Proof.
  rewrite list_elem_of_fmap. split.
  - intros (p & -> & [(r & Hr & Hk) _]%elem_of_aggregate).
    exists r. split; [done|]. by injection Hk.
  - intros (r & Hr & <-).
    exists (Point (YearStart r) (Stratification1 r) (weighted_mean (get_group (obs_key r) df))).
    split; [done|]. apply elem_of_aggregate. split; [|done]. by exists r.
Qed.

(** C8, as the code behaves: a table with a band outside [age_order] (here
    "Total") is aggregated like any other, and the band is in the output; so
    the output's bands are not within [age_order] for every table. *)
Lemma age_heatmap_keeps_unlisted_band :
  df_nat [Obs 2015 "18 - 24" 28%float (number 100%float);
          Obs 2015 "Total" 30.5%float (number 400%float)]
  = [Point 2015 "18 - 24" 28%float; Point 2015 "Total" 30.5%float] /\
  ~ "Total" ∈ age_order /\
  ~ (forall (df_age : list (obs float (cell float))) (p : point float),
        p ∈ df_nat df_age -> pt_category p ∈ age_order).
Proof.
  assert (~ "Total" ∈ age_order) as Hout.
  { unfold age_order. rewrite !elem_of_cons, elem_of_nil.
    intros Hin. repeat (destruct Hin as [Hin|Hin]; [discriminate Hin|]). done. }
  split; [by vm_compute|]. split; [exact Hout|].
  intros Hall. apply Hout.
  apply (Hall [Obs 2015 "18 - 24" 28%float (number 100%float);
               Obs 2015 "Total" 30.5%float (number 400%float)]
              (Point 2015 "Total" 30.5%float)).
  vm_compute. right. left.
Qed.

(** C8, amended.  The age bands of the aggregated output are exactly the bands
    of the table's rows that survive the cleaning step: none is rejected and
    none is added.  So the output's bands lie within the canonical six exactly
    when the bands of the valid input rows do. *)
Theorem age_heatmap_categories (df_age : list (obs float (cell float))) :
  (forall c, c ∈ pt_category <$> df_nat df_age <->
             exists r, r ∈ clean df_age /\ Stratification1 r = c) /\
  ((forall p, p ∈ df_nat df_age -> pt_category p ∈ age_order) <->
   (forall r, r ∈ clean df_age -> Stratification1 r ∈ age_order)).
Proof.
  assert (forall c, c ∈ pt_category <$> df_nat df_age <->
                    exists r, r ∈ clean df_age /\ Stratification1 r = c) as Hcat
    by (intros c; apply elem_of_aggregate_categories).
  split; [exact Hcat|]. split.
  - intros Hout r Hr.
    assert (Stratification1 r ∈ pt_category <$> df_nat df_age) as Hin
      by (apply Hcat; by exists r).
    apply list_elem_of_fmap in Hin as (p & -> & Hp). by apply Hout.
  - intros Hin p Hp.
    assert (pt_category p ∈ pt_category <$> df_nat df_age) as Hc
      by (apply list_elem_of_fmap; by exists p).
    apply Hcat in Hc as (r & Hr & <-). by apply Hin.
Qed.

(** ** binary64 facts the growth column rests on *)

Lemma Prim2SF_nan : Prim2SF PrimFloat.nan = S754_nan.
Proof. reflexivity. Qed.

Lemma is_nan_spec (x : float) :
  PrimFloat.is_nan x = true <-> Prim2SF x = S754_nan.
Proof.
  unfold PrimFloat.is_nan. rewrite FloatAxioms.eqb_spec.
  destruct (Prim2SF x) as [s| s| |s m e]; unfold SFeqb; simpl.
  - split; discriminate.
  - destruct s; split; discriminate.
  - split; reflexivity.
  - rewrite Z.compare_refl.
    change (PosDef.Pos.compare_cont Eq m m) with (Pos.compare m m).
    rewrite Pos.compare_refl. destruct s; split; discriminate.
Qed.

(** Anything minus a missing value is missing. *)
Lemma float_sub_nan_r (x : float) : PrimFloat.is_nan (x - PrimFloat.nan) = true.
Proof.
  apply is_nan_spec. rewrite FloatAxioms.sub_spec, Prim2SF_nan.
  by destruct (Prim2SF x).
Qed.

(** A finite number minus itself is zero. *)
Lemma float_sub_diag (x : float) :
  PrimFloat.is_finite x = true -> (x - x)%float = 0%float.
Proof.
  intros Hfin. apply Prim2SF_inj. rewrite FloatAxioms.sub_spec.
  change (Prim2SF 0) with (S754_zero false).
  unfold PrimFloat.is_finite, PrimFloat.is_infinity in Hfin.
  destruct (Prim2SF x) as [s| s| |s m e] eqn:Hx.
  - by destruct s.
  - exfalso. rewrite FloatAxioms.eqb_spec, FloatAxioms.abs_spec, Hx in Hfin.
    rewrite orb_true_r in Hfin. discriminate.
  - exfalso. apply is_nan_spec in Hx. by rewrite Hx in Hfin.
  - unfold SF64sub, SFsub. by rewrite Z.sub_diag.
Qed.

(** ** The left join on the 2011 baseline *)

Lemma NoDup_all_equal {X} (l : list X) :
  NoDup l -> (forall x y, x ∈ l -> y ∈ l -> x = y) -> (length l <= 1)%nat.
Proof.
  intros Hnd Heq. destruct l as [|x [|y l]]; simpl; [lia | lia |].
  exfalso. assert (x = y) as -> by (apply Heq; set_solver).
  apply NoDup_cons in Hnd as [Hnd _]. set_solver.
Qed.

Section left_join.
Context `{Number A}.
Implicit Types (p q : point A) (b : A) (c : string).

Lemma elem_of_base_2011 (agg : list (point A)) c b :
  (c, b) ∈ base_2011 agg <->
  exists q, q ∈ agg /\ pt_year q = 2011%Z /\ pt_category q = c /\ pt_rate q = b.
Proof.
  unfold base_2011. rewrite list_elem_of_fmap. split.
  - intros (q & [= -> ->] & [Hy Hq]%list_elem_of_filter). by exists q.
  - intros (q & Hq & Hy & <- & <-). exists q. split; [done|].
    by apply list_elem_of_filter.
Qed.

(** What a row of the merged frame is made of. *)
Lemma elem_of_merge_left (left : list (point A)) (right : list (string * A)) p b :
  (p, b) ∈ merge_left left right ->
  p ∈ left /\
  ((pt_category p, b) ∈ right \/
   ((forall b', (pt_category p, b') ∉ right) /\ b = nan)).
Proof.
  unfold merge_left. intros (p0 & Hin & Hp0)%list_elem_of_bind.
  destruct (filter _ right) as [|m ms] eqn:Hf.
  - apply list_elem_of_singleton in Hin as [= -> ->]. split; [done|].
    right. split; [|done]. intros b' Hb'.
    assert ((pt_category p0, b') ∈ filter (fun b0 : string * A => b0.1 = pt_category p0) right)
      as Hm by by apply list_elem_of_filter.
    rewrite Hf in Hm. by apply elem_of_nil in Hm.
  - apply list_elem_of_fmap in Hin as ([c0 b0] & [= -> ->] & Hm).
    rewrite <- Hf in Hm. apply list_elem_of_filter in Hm as [Hc Hm].
    simpl in *. subst c0. split; [done|]. by left.
Qed.

(** Joined to a right frame with at most one row per category, the left
    frame comes back row for row. *)
Lemma merge_left_retains (left : list (point A)) (right : list (string * A)) :
  (forall p, (length (filter (fun b0 : string * A => b0.1 = pt_category p) right) <= 1)%nat) ->
  (merge_left left right).*1 = left.
Proof.
  intros Hone. unfold merge_left.
  induction left as [|p left IH]; [done|].
  rewrite bind_cons, fmap_app, IH. specialize (Hone p).
  destruct (filter _ right) as [|m [|m' ms]]; simpl in *; [done | done | lia].
Qed.

(** The baseline frame of an aggregated frame has one row per category. *)
Lemma base_2011_one_per_category (df : list (obs A A)) c :
  (length (filter (fun b0 : string * A => b0.1 = c) (base_2011 (aggregate df))) <= 1)%nat.
Proof.
  assert (forall q q', q ∈ filter (fun p => pt_year p = 2011%Z) (aggregate df) ->
                       q' ∈ filter (fun p => pt_year p = 2011%Z) (aggregate df) ->
                       pt_category q = pt_category q' -> q = q') as Hinj.
  { intros q q' [Hy Hq]%list_elem_of_filter [Hy' Hq']%list_elem_of_filter Hc.
    apply (aggregate_key_inj df); [done | done |].
    unfold point_key. by rewrite Hy, Hy', Hc. }
  apply NoDup_all_equal.
  - apply NoDup_filter. unfold base_2011. apply NoDup_fmap_2_strong.
    + intros q q' Hq Hq' [= Hc _]. by apply Hinj.
    + apply NoDup_filter, NoDup_aggregate.
  - intros [c1 b1] [c2 b2] [Hc1 Hb1]%list_elem_of_filter [Hc2 Hb2]%list_elem_of_filter.
    simpl in *. subst c1 c2.
    apply elem_of_base_2011 in Hb1 as (q1 & Hq1 & Hy1 & Hk1 & <-).
    apply elem_of_base_2011 in Hb2 as (q2 & Hq2 & Hy2 & Hk2 & <-).
    f_equal. f_equal. apply (aggregate_key_inj df); [done | done |].
    unfold point_key. by rewrite Hy1, Hy2, Hk1, Hk2.
Qed.

(** The rows of the frame the income charts receive. *)
Lemma elem_of_df_inc_growth (df_income_raw : list (obs A (cell A))) (row : growth_row A) :
  row ∈ df_inc_growth df_income_raw ->
  let agg := df_inc_agg df_income_raw in
  g_point row ∈ agg /\
  Growth row = nsub (pt_rate (g_point row)) (Base_2011 row) /\
  ((exists q, q ∈ agg /\ pt_year q = 2011%Z /\
              pt_category q = pt_category (g_point row) /\ Base_2011 row = pt_rate q) \/
   ((forall q, q ∈ agg -> pt_category q = pt_category (g_point row) -> pt_year q <> 2011%Z) /\
    Base_2011 row = nan)).
Proof.
  unfold df_inc_growth. intros ([p b] & -> & Hpb)%list_elem_of_fmap. simpl.
  apply elem_of_merge_left in Hpb as [Hp Hb]. split; [done|]. split; [done|].
  destruct Hb as [Hb | [Hnone ->]].
  - left. apply elem_of_base_2011 in Hb as (q & Hq & Hy & Hc & Hr). by exists q.
  - right. split; [|done]. intros q Hq Hc Hy.
    apply (Hnone (pt_rate q)), elem_of_base_2011. by exists q.
Qed.

Lemma df_inc_growth_points (df_income_raw : list (obs A (cell A))) :
  g_point <$> df_inc_growth df_income_raw = df_inc_agg df_income_raw.
Proof.
  unfold df_inc_growth. rewrite <- list_fmap_compose.
  etrans; [| apply (merge_left_retains _ (base_2011 (df_inc_agg df_income_raw)))].
  - by apply list_fmap_ext.
  - intros p. apply base_2011_one_per_category.
Qed.
End left_join.

(** ** C4 and C5: growth since 2011 *)

(** C4.  In the frame the income charts receive, a row of year 2011 whose
    baseline is a (finite) number has that number as its own rate, and its
    growth is 0. *)
Theorem growth_at_baseline_year
    (df_income_raw : list (obs float (cell float))) (row : growth_row float) :
  row ∈ df_inc_growth df_income_raw ->
  pt_year (g_point row) = 2011%Z ->
  PrimFloat.is_finite (Base_2011 row) = true ->
  Base_2011 row = pt_rate (g_point row) /\ Growth row = 0%float.
Proof.
  intros Hrow Hyear Hfin.
  apply elem_of_df_inc_growth in Hrow as (Hp & Hgrowth & Hbase).
  assert (Base_2011 row = pt_rate (g_point row)) as Hown.
  { destruct Hbase as [(q & Hq & Hy & Hc & ->) | [Hnone _]].
    - f_equal. apply (aggregate_key_inj (clean df_income_raw)); [done | done |].
      unfold point_key. by rewrite Hy, Hyear, Hc.
    - by destruct (Hnone (g_point row)). }
  split; [done|]. rewrite Hgrowth, <- Hown. by apply float_sub_diag.
Qed.

(** Scenario 2: "Less than $15,000" at 30.0 in 2011 and 33.5 in 2015. *)
Lemma growth_at_baseline_year_scenario :
  let df := [Obs 2011 "Less than $15,000" 30%float (number 120%float);
             Obs 2015 "Less than $15,000" 33.5%float (number 150%float)] in
  let row := GrowthRow (Point 2011 "Less than $15,000" 30%float) 30%float 0%float in
  Base_2011 row = pt_rate (g_point row) /\ Growth row = 0%float.
Proof.
  intros df row. apply (growth_at_baseline_year df row).
  - vm_compute. left.
  - reflexivity.
  - reflexivity.
Defined.

(** C5.  The merge keeps every aggregated (year, category) row, once and in
    order; a row whose category has no aggregated row in 2011 has a missing
    baseline and a missing growth, neither of which is zero. *)
Theorem income_left_join (df_income_raw : list (obs float (cell float))) :
  g_point <$> df_inc_growth df_income_raw = df_inc_agg df_income_raw /\
  forall row : growth_row float,
    row ∈ df_inc_growth df_income_raw ->
    (forall q, q ∈ df_inc_agg df_income_raw ->
               pt_category q = pt_category (g_point row) -> pt_year q <> 2011%Z) ->
    (PrimFloat.is_nan (Base_2011 row) = true /\ Base_2011 row <> 0%float) /\
    (PrimFloat.is_nan (Growth row) = true /\ Growth row <> 0%float).
Proof.
  split; [apply df_inc_growth_points|].
  intros row Hrow Habsent.
  apply elem_of_df_inc_growth in Hrow as (Hp & Hgrowth & Hbase).
  assert (forall x : float, PrimFloat.is_nan x = true -> x <> 0%float) as Hnz
    by (intros x Hx ->; discriminate Hx).
  destruct Hbase as [(q & Hq & Hy & Hc & _) | [_ Hnan]].
  - by destruct (Habsent q).
  - assert (PrimFloat.is_nan (Growth row) = true) as Hg.
    { rewrite Hgrowth, Hnan. apply float_sub_nan_r. }
    assert (PrimFloat.is_nan (Base_2011 row) = true) as Hb by by rewrite Hnan.
    auto.
Qed.

(** ** C2 and C9: the map under the hover selection *)

Section map_view.
Context {A G : Type} (states : gmap Z G).
Implicit Types (df_map : list (map_row A)) (hover_year : selection).

Opaque state_id_map.

Lemma elem_of_bottom_map df_map hover_year (d : map_datum A G) :
  d ∈ bottom_map states df_map hover_year <->
  d_row d ∈ df_map /\
  d_id d = state_id_map !! LocationAbbr (d_row d) /\
  d_geometry d = d_id d ≫= (states !!.) /\
  selected hover_year (m_YearStart (d_row d)) = true.
Proof.
  unfold bottom_map, transform_filter, transform_lookup, with_id.
  rewrite list_elem_of_filter, <- list_fmap_compose, list_elem_of_fmap.
  rewrite Is_true_true. split.
  - intros [Hsel (r & -> & Hr)]. by simpl in *.
  - intros (Hr & Hid & Hgeo & Hsel). split; [done|]. exists (d_row d).
    split; [|done]. destruct d as [r i g]; simpl in *. by subst.
Qed.

(** A region is drawn when a row of the table names it, the selection
    selects the row's year, the static table gives it an identifier, and the
    boundary data has a feature for that identifier. *)
Lemma elem_of_rendered_regions df_map hover_year (abbr : string) :
  abbr ∈ rendered_regions states df_map hover_year <->
  exists r, r ∈ df_map /\ LocationAbbr r = abbr /\
            selected hover_year (m_YearStart r) = true /\
            exists i, state_id_map !! abbr = Some i /\ is_Some (states !! i).
Proof.
  unfold rendered_regions, geoshapes. rewrite list_elem_of_fmap. split.
  - intros (d & -> & [Hgeo (Hr & Hid & Hlook & Hsel)%elem_of_bottom_map]%list_elem_of_filter).
    exists (d_row d). repeat split; [done | done |].
    rewrite Hlook, Hid in Hgeo.
    destruct (state_id_map !! LocationAbbr (d_row d)) as [i|]; simpl in Hgeo.
    + by exists i.
    + by destruct Hgeo.
  - intros (r & Hr & <- & Hsel & i & Hi & Hgeo).
    exists (MapDatum r (Some i) (states !! i)). split; [done|].
    apply list_elem_of_filter. split; [done|].
    apply elem_of_bottom_map. simpl. by rewrite Hi.
Qed.

End map_view.

Section map_view_rows.
Context {A G : Type} (states : gmap Z G).
Implicit Types (df_map : list (map_row A)) (hover_year : selection).

(** The map layer treats the rows of the table one by one. *)
Lemma geoshapes_bottom_map_app df_map1 df_map2 hover_year :
  geoshapes (bottom_map states (df_map1 ++ df_map2) hover_year)
  = geoshapes (bottom_map states df_map1 hover_year)
    ++ geoshapes (bottom_map states df_map2 hover_year).
Proof.
  unfold geoshapes, bottom_map, transform_filter, transform_lookup, with_id.
  by rewrite !fmap_app, !filter_app.
Qed.

Lemma geoshapes_unmapped_row (r : map_row A) hover_year :
  state_id_map !! LocationAbbr r = None ->
  geoshapes (bottom_map states [r] hover_year) = [].
Proof.
  intros Hnone. apply elem_of_nil_inv. intros d.
  unfold geoshapes. rewrite list_elem_of_filter, elem_of_bottom_map.
  intros [Hgeo (Hr & Hid & Hlook & _)].
  apply list_elem_of_singleton in Hr. subst r.
  rewrite Hlook, Hid, Hnone in Hgeo. by destruct Hgeo.
Qed.

Lemma geoshapes_without_unmapped df_map (abbr : string) hover_year :
  state_id_map !! abbr = None ->
  geoshapes (bottom_map states (filter (fun r => LocationAbbr r <> abbr) df_map) hover_year)
  = geoshapes (bottom_map states df_map hover_year).
Proof.
  intros Hnone. induction df_map as [|r df_map IH]; [done|].
  rewrite filter_cons.
  change (r :: df_map) with ([r] ++ df_map). rewrite geoshapes_bottom_map_app.
  destruct (decide (LocationAbbr r <> abbr)) as [Hne|Heq].
  - change (r :: filter (fun r => LocationAbbr r <> abbr) df_map)
      with ([r] ++ filter (fun r => LocationAbbr r <> abbr) df_map).
    by rewrite geoshapes_bottom_map_app, IH.
  - apply dec_stable in Heq. subst abbr.
    by rewrite geoshapes_unmapped_row, IH.
Qed.
End map_view_rows.



(** C9.  A region abbreviation the static table does not know is never among
    the regions the map shows, whatever the selection; computing the map is a
    total function of the table, and the shapes it draws are those it draws
    for the table without the rows of that abbreviation. *)
Theorem unknown_region_is_dropped {G} (states : gmap Z G)
    (df_map : list (map_row float)) (abbr : string) (hover_year : selection) :
  state_id_map !! abbr = None ->
  (abbr ∉ rendered_regions states df_map hover_year) /\
  geoshapes (bottom_map states (filter (fun r => LocationAbbr r <> abbr) df_map) hover_year)
  = geoshapes (bottom_map states df_map hover_year).
Proof.
  intros Hnone. split; [| by apply geoshapes_without_unmapped].
  intros (r & _ & _ & _ & i & Hi & _)%elem_of_rendered_regions. congruence.
Qed.

(** Scenario 3: a row with [LocationAbbr] "ZZ". *)
Lemma unknown_region_is_dropped_ZZ :
  let states : gmap Z string :=
    list_to_map ((fun kv : string * Z => (kv.2, kv.1)) <$> map_to_list state_id_map) in
  let df_map :=
    [MapRow 2011 "AL" "Alabama" 32%float; MapRow 2011 "ZZ" "Nowhere" 30.5%float;
     MapRow 2012 "AL" "Alabama" 33%float; MapRow 2012 "AK" "Alaska" 25.5%float] in
  ("ZZ" ∉ rendered_regions states df_map (Some 2011%Z)) /\
  geoshapes (bottom_map states (filter (fun r => LocationAbbr r <> "ZZ") df_map) (Some 2011%Z))
  = geoshapes (bottom_map states df_map (Some 2011%Z)).
Proof.
  intros states df_map.
  apply (unknown_region_is_dropped states df_map "ZZ" (Some 2011%Z)).
  by vm_compute.
Defined.

(** ** Exact arithmetic *)

Section exact_arithmetic.
Local Open Scope Qc_scope.

Lemma Series_sum_exact_from (a : Qc) (l : list Qc) :
  fold_left nadd (List.filter (fun x : option Qc => negb (isna x)) (Some <$> l)) (Some a)
  = Some (a + Qc_sum l).
Proof.
  revert a. induction l as [|q l IH]; intros a; simpl.
  - by rewrite Qcplus_0_r.
  - by rewrite IH, Qcplus_assoc.
Qed.

(** A column without missing entries sums to the sum of its entries. *)
Lemma Series_sum_exact (l : list Qc) : Series_sum (Some <$> l) = Some (Qc_sum l).
Proof.
  unfold Series_sum. change nzero with (Some 0).
  by rewrite Series_sum_exact_from, Qcplus_0_l.
Qed.

Lemma Series_mul_exact (g : list (obs Qc Qc)) :
  Series_mul (Data_Value <$> (exact_row <$> g)) (Sample_Size <$> (exact_row <$> g))
  = Some <$> ((fun r => Data_Value r * Sample_Size r) <$> g).
Proof. induction g as [|r g IH]; [done|]. simpl. by f_equal. Qed.

(** The weighted mean of a group without missing entries: undefined when
    the weights sum to zero, and the quotient of the two sums otherwise. *)
Lemma weighted_mean_exact (g : list (obs Qc Qc)) :
  weighted_mean (exact_row <$> g)
  = if decide (total_weight g = 0) then None
    else Some (weighted_total g / total_weight g).
Proof.
  unfold weighted_mean. rewrite Series_mul_exact, Series_sum_exact.
  replace (Sample_Size <$> (exact_row <$> g)) with (Some <$> (Sample_Size <$> g))
    by (rewrite <- !list_fmap_compose; by apply list_fmap_ext).
  by rewrite Series_sum_exact.
Qed.

Lemma Qc_of_count_S (n : nat) :
  Qc_of_Z (Z.of_nat (S n)) = Qc_of_Z (Z.of_nat n) + 1.
Proof. by rewrite Nat2Z.inj_succ, <- Z.add_1_r, Z2Qc_inj_add, Z2Qc_inj_1. Qed.

Lemma Qc_of_count_S_nonzero (n : nat) : Qc_of_Z (Z.of_nat (S n)) <> 0.
Proof. rewrite <- Z2Qc_inj_0. intros Heq%Z2Qc_inj. lia. Qed.

Lemma mean_step_exact (m q : Qc) (n : nat) :
  mean_step (Some m, n) (Some q)
  = (Some (m + (q - m) / Qc_of_Z (Z.of_nat (S n))), S n).
Proof.
  unfold mean_step.
  cbn [isna nadd nsub ndiv of_count exact lift2 exact_div fst snd].
  destruct (decide (Qc_of_Z (Z.of_nat (S n)) = 0)) as [Hz|_]; [|done].
  by destruct (Qc_of_count_S_nonzero n).
Qed.

(** The running mean keeps [mean * valid] equal to the sum of what it has
    seen. *)
Lemma mean_step_invariant (qs : list Qc) (m : Qc) (n : nat) :
  exists m' : Qc,
    fold_left mean_step (Some <$> qs) (Some m, n) = (Some m', (n + length qs)%nat) /\
    m' * Qc_of_Z (Z.of_nat (n + length qs)) = m * Qc_of_Z (Z.of_nat n) + Qc_sum qs.
Proof.
  revert m n. induction qs as [|q qs IH]; intros m n.
  - exists m. rewrite Nat.add_0_r. simpl. by rewrite Qcplus_0_r.
  - pose proof (Qc_of_count_S_nonzero n) as Hnz.
    destruct (IH (m + (q - m) / Qc_of_Z (Z.of_nat (S n))) (S n)) as (m' & Hfold & Hinv).
    exists m'. split.
    + rewrite fmap_cons. cbn [fold_left].
      rewrite mean_step_exact, Hfold. f_equal. simpl. lia.
    + replace (n + length (q :: qs))%nat with (S n + length qs)%nat by (simpl; lia).
      rewrite Hinv. simpl. rewrite Qc_of_count_S in *. field. done.
Qed.

(** Over values that are all present, the renderer's mean is the sum
    divided by the count. *)
Lemma vega_mean_exact (values : list Qc) :
  values <> [] ->
  vega_mean (Some <$> values)
  = Some (Qc_sum values / Qc_of_Z (Z.of_nat (length values))).
Proof.
  intros Hne. unfold vega_mean. change nzero with (Some 0).
  destruct (mean_step_invariant values 0 0) as (m' & -> & Hinv).
  destruct values as [|q qs]; [done|]. simpl in *.
  f_equal. rewrite Qcmult_0_l, Qcplus_0_l in Hinv. rewrite <- Hinv.
  symmetry. apply Qcdiv_mult_l. apply (Qc_of_count_S_nonzero (length qs)).
Qed.
End exact_arithmetic.

(** ** C6, C7, C10: algebra of the weighted mean *)

Section weighted_mean_algebra.
Local Open Scope Qc_scope.
Implicit Types (g : list (obs Qc Qc)) (r : obs Qc Qc).

Lemma weighted_total_cons r g :
  weighted_total (r :: g) = Data_Value r * Sample_Size r + weighted_total g.
Proof. reflexivity. Qed.

Lemma total_weight_cons r g :
  total_weight (r :: g) = Sample_Size r + total_weight g.
Proof. reflexivity. Qed.

Lemma weighted_total_same_value g (v : Qc) :
  (forall r, r ∈ g -> Data_Value r = v) -> weighted_total g = v * total_weight g.
Proof.
  induction g as [|r g IH]; intros Hv.
  - symmetry. apply Qcmult_0_r.
  - rewrite weighted_total_cons, total_weight_cons.
    rewrite IH by (intros r' Hr'; apply Hv; by right).
    rewrite (Hv r) by left. ring.
Qed.

Lemma total_weight_nonneg g :
  (forall r, r ∈ g -> 0 <= Sample_Size r) -> 0 <= total_weight g.
Proof.
  induction g as [|r g IH]; intros Hw; [done|].
  rewrite total_weight_cons.
  apply Qcplus_nonneg_nonneg; [apply Hw; left | apply IH].
  intros r' Hr'. apply Hw. by right.
Qed.

Lemma total_weight_pos g :
  (forall r, r ∈ g -> 0 <= Sample_Size r) ->
  (exists r, r ∈ g /\ 0 < Sample_Size r) ->
  0 < total_weight g.
Proof.
  intros Hw (r & Hr & Hpos).
  induction g as [|r' g IH]; [by apply elem_of_nil in Hr|].
  assert (0 <= total_weight g) as Hrest
    by (apply total_weight_nonneg; intros r'' Hr''; apply Hw; by right).
  rewrite total_weight_cons.
  apply elem_of_cons in Hr as [<- | Hr].
  - by apply Qcplus_pos_nonneg.
  - apply Qcplus_nonneg_pos; [apply Hw; left|].
    apply IH; [|done]. intros r'' Hr''. apply Hw. by right.
Qed.

Lemma weighted_total_le g (hi : Qc) :
  (forall r, r ∈ g -> 0 <= Sample_Size r) ->
  (forall r, r ∈ g -> Data_Value r <= hi) ->
  weighted_total g <= hi * total_weight g.
Proof.
  induction g as [|r g IH]; intros Hw Hv.
  - rewrite Qcmult_0_r. apply Qcle_refl.
  - rewrite weighted_total_cons, total_weight_cons, Qcmult_plus_distr_r.
    apply Qcplus_le_compat.
    + apply Qcmult_le_compat_r; [apply Hv | apply Hw]; left.
    + apply IH; intros r' Hr'; [apply Hw | apply Hv]; by right.
Qed.

Lemma weighted_total_ge g (lo : Qc) :
  (forall r, r ∈ g -> 0 <= Sample_Size r) ->
  (forall r, r ∈ g -> lo <= Data_Value r) ->
  lo * total_weight g <= weighted_total g.
Proof.
  induction g as [|r g IH]; intros Hw Hv.
  - rewrite Qcmult_0_r. apply Qcle_refl.
  - rewrite weighted_total_cons, total_weight_cons, Qcmult_plus_distr_r.
    apply Qcplus_le_compat.
    + apply Qcmult_le_compat_r; [apply Hv | apply Hw]; left.
    + apply IH; intros r' Hr'; [apply Hw | apply Hv]; by right.
Qed.

Lemma Qc_min_le_l (a b : Qc) : Qc_min a b <= a.
Proof.
  unfold Qc_min. destruct (decide (a <= b)) as [|Hn]; [apply Qcle_refl|].
  by apply Qclt_le_weak, Qcnot_le_lt.
Qed.

Lemma Qc_min_le_r (a b : Qc) : Qc_min a b <= b.
Proof. unfold Qc_min. destruct (decide (a <= b)); [done | apply Qcle_refl]. Qed.

Lemma Qc_max_ge_l (a b : Qc) : a <= Qc_max a b.
Proof. unfold Qc_max. destruct (decide (a <= b)); [done | apply Qcle_refl]. Qed.

Lemma Qc_max_ge_r (a b : Qc) : b <= Qc_max a b.
Proof.
  unfold Qc_max. destruct (decide (a <= b)) as [|Hn]; [apply Qcle_refl|].
  by apply Qclt_le_weak, Qcnot_le_lt.
Qed.

Lemma foldr_Qc_min_le (v : Qc) (vs : list Qc) (x : Qc) :
  x ∈ v :: vs -> foldr Qc_min v vs <= x.
Proof.
  induction vs as [|y vs IH]; simpl.
  - intros ->%list_elem_of_singleton. apply Qcle_refl.
  - intros [-> | [-> | Hx]%elem_of_cons]%elem_of_cons.
    + eapply Qcle_trans; [apply Qc_min_le_r | apply IH; left].
    + apply Qc_min_le_l.
    + eapply Qcle_trans; [apply Qc_min_le_r | apply IH; by right].
Qed.

Lemma foldr_Qc_max_ge (v : Qc) (vs : list Qc) (x : Qc) :
  x ∈ v :: vs -> x <= foldr Qc_max v vs.
Proof.
  induction vs as [|y vs IH]; simpl.
  - intros ->%list_elem_of_singleton. apply Qcle_refl.
  - intros [-> | [-> | Hx]%elem_of_cons]%elem_of_cons.
    + eapply Qcle_trans; [apply IH; left | apply Qc_max_ge_r].
    + apply Qc_max_ge_l.
    + eapply Qcle_trans; [apply IH; by right | apply Qc_max_ge_r].
Qed.

Lemma min_value_le g (lo : Qc) r : min_value g = Some lo -> r ∈ g -> lo <= Data_Value r.
Proof.
  unfold min_value. intros Hmin Hr.
  assert (Data_Value r ∈ Data_Value <$> g) as Hin
    by (apply list_elem_of_fmap; by exists r).
  destruct (Data_Value <$> g) as [|v vs]; [done|].
  injection Hmin as <-. by apply foldr_Qc_min_le.
Qed.

Lemma max_value_ge g (hi : Qc) r : max_value g = Some hi -> r ∈ g -> Data_Value r <= hi.
Proof.
  unfold max_value. intros Hmax Hr.
  assert (Data_Value r ∈ Data_Value <$> g) as Hin
    by (apply list_elem_of_fmap; by exists r).
  destruct (Data_Value <$> g) as [|v vs]; [done|].
  injection Hmax as <-. by apply foldr_Qc_max_ge.
Qed.

Lemma scale_weights_exact (c : Qc) g :
  scale_weights (Some c) (exact_row <$> g)
  = exact_row <$> ((fun r => Obs (YearStart r) (Stratification1 r) (Data_Value r)
                                 (c * Sample_Size r)) <$> g).
Proof.
  unfold scale_weights. rewrite <- !list_fmap_compose. by apply list_fmap_ext.
Qed.

Lemma total_weight_scaled (c : Qc) g :
  total_weight ((fun r => Obs (YearStart r) (Stratification1 r) (Data_Value r)
                              (c * Sample_Size r)) <$> g)
  = c * total_weight g.
Proof.
  induction g as [|r g IH].
  - symmetry. apply Qcmult_0_r.
  - rewrite fmap_cons, !total_weight_cons, IH. simpl. ring.
Qed.

Lemma weighted_total_scaled (c : Qc) g :
  weighted_total ((fun r => Obs (YearStart r) (Stratification1 r) (Data_Value r)
                                (c * Sample_Size r)) <$> g)
  = c * weighted_total g.
Proof.
  induction g as [|r g IH].
  - symmetry. apply Qcmult_0_r.
  - rewrite fmap_cons, !weighted_total_cons, IH. simpl. ring.
Qed.
End weighted_mean_algebra.

(** C6, as the code behaves.  In binary64 a group whose rows all hold 25.1,
    with sample sizes 291 and 1215, has a weighted mean strictly below 25.1;
    and with sample sizes that are all zero the weighted mean is missing.  So
    a group of equal values does not always aggregate to that value. *)
Lemma same_value_group_binary64 :
  let g := [Obs 2015 "18 - 24" 25.1%float 291%float;
            Obs 2015 "18 - 24" 25.1%float 1215%float] in
  let g0 := [Obs 2015 "18 - 24" 25.1%float 0%float;
             Obs 2015 "18 - 24" 25.1%float 0%float] in
  weighted_mean g = 25.099999999999998%float /\
  (weighted_mean g <? 25.1)%float = true /\
  weighted_mean g <> 25.1%float /\
  PrimFloat.is_nan (weighted_mean g0) = true /\
  ~ (forall (group : list (obs float float)) (v : float),
        group <> [] -> (forall r, r ∈ group -> Data_Value r = v) ->
        weighted_mean group = v).
Proof.
  intros g g0.
  assert (weighted_mean g <> 25.1%float) as Hne.
  { intros Heq. apply (f_equal (fun x => PrimFloat.ltb x 25.1%float)) in Heq.
    vm_compute in Heq. discriminate Heq. }
  split; [by vm_compute|]. split; [by vm_compute|].
  split; [exact Hne|]. split; [by vm_compute|].
  intros Hall. apply Hne, Hall; [discriminate|].
  intros r Hr. unfold g in Hr. rewrite !elem_of_cons, elem_of_nil in Hr.
  destruct Hr as [-> | [-> | []]]; reflexivity.
Qed.

(** C6, amended.  In exact arithmetic, the weighted mean of a non-empty group
    whose rows all hold the value [v] is [v] whenever the weights do not sum
    to zero, and is undefined when they do. *)
Theorem same_value_group_exact (g : list (obs Qc Qc)) (v : Qc) :
  g <> [] ->
  (forall r, r ∈ g -> Data_Value r = v) ->
  weighted_mean (exact_row <$> g)
  = if decide (total_weight g = 0%Qc) then None else Some v.
Proof.
  intros _ Hv. rewrite weighted_mean_exact.
  destruct (decide (total_weight g = 0%Qc)) as [|Hnz]; [done|].
  f_equal. rewrite (weighted_total_same_value g v Hv).
  rewrite Qcmult_comm, Qcmult_comm. by apply Qcdiv_mult_l.
Qed.

Lemma same_value_group_exact_sample :
  weighted_mean (exact_row <$> [Obs 2015 "18 - 24" (Q2Qc (251 # 10)) (Q2Qc 291);
                                Obs 2015 "18 - 24" (Q2Qc (251 # 10)) (Q2Qc 1215)])
  = Some (Q2Qc (251 # 10)).
Proof.
  apply (same_value_group_exact
           [Obs 2015 "18 - 24" (Q2Qc (251 # 10)) (Q2Qc 291);
            Obs 2015 "18 - 24" (Q2Qc (251 # 10)) (Q2Qc 1215)] (Q2Qc (251 # 10))).
  - discriminate.
  - intros r Hr. rewrite !elem_of_cons, elem_of_nil in Hr.
    destruct Hr as [-> | [-> | []]]; reflexivity.
Defined.

(** C7, as the code behaves.  In binary64 a group with values 25.1 and 25.1
    and sample sizes 1347 and 1645 has a weighted mean strictly above 25.1,
    the largest (and smallest) value of the group.  So an upper bound of the
    values of a group is not always an upper bound of its weighted mean. *)
Lemma weighted_mean_leaves_range_binary64 :
  let g := [Obs 2015 "18 - 24" 25.1%float 1347%float;
            Obs 2015 "18 - 24" 25.1%float 1645%float] in
  Data_Value <$> g = [25.1%float; 25.1%float] /\
  weighted_mean g = 25.100000000000005%float /\
  (25.1 <? weighted_mean g)%float = true /\
  ~ (forall (group : list (obs float float)) (hi : float),
        (forall r, r ∈ group -> (0 <=? Sample_Size r)%float = true) ->
        (exists r, r ∈ group /\ (0 <? Sample_Size r)%float = true) ->
        (forall r, r ∈ group -> (Data_Value r <=? hi)%float = true) ->
        (weighted_mean group <=? hi)%float = true).
Proof.
  intros g. split; [by vm_compute|]. split; [by vm_compute|].
  split; [by vm_compute|].
  intros Hall. specialize (Hall g 25.1%float).
  assert ((weighted_mean g <=? 25.1)%float = false) as Hgt by by vm_compute.
  rewrite Hall in Hgt; [discriminate Hgt | | |].
  - intros r Hr. unfold g in Hr. rewrite !elem_of_cons, elem_of_nil in Hr.
    destruct Hr as [-> | [-> | []]]; reflexivity.
  - exists (Obs 2015 "18 - 24" 25.1%float 1347%float). split; [left | reflexivity].
  - intros r Hr. unfold g in Hr. rewrite !elem_of_cons, elem_of_nil in Hr.
    destruct Hr as [-> | [-> | []]]; reflexivity.
Qed.

(** C7, amended.  In exact arithmetic, the weighted mean of a group with
    non-negative weights, one of them positive, is defined and lies between
    the smallest and the largest value of the group. *)
Theorem weighted_mean_within_range_exact (g : list (obs Qc Qc)) :
  (forall r, r ∈ g -> (0 <= Sample_Size r)%Qc) ->
  (exists r, r ∈ g /\ (0 < Sample_Size r)%Qc) ->
  exists lo hi m : Qc,
    min_value g = Some lo /\ max_value g = Some hi /\
    weighted_mean (exact_row <$> g) = Some m /\
    (lo <= m)%Qc /\ (m <= hi)%Qc.
Proof.
  intros Hw Hpos.
  pose proof (total_weight_pos g Hw Hpos) as HT.
  assert (total_weight g <> 0%Qc) as Hnz by (symmetry; by apply Qclt_not_eq).
  assert (exists lo, min_value g = Some lo) as [lo Hlo].
  { unfold min_value. destruct Hpos as (r & Hr & _).
    destruct g as [|r0 g]; [by apply elem_of_nil in Hr | by eexists]. }
  assert (exists hi, max_value g = Some hi) as [hi Hhi].
  { unfold max_value. destruct Hpos as (r & Hr & _).
    destruct g as [|r0 g]; [by apply elem_of_nil in Hr | by eexists]. }
  exists lo, hi, (weighted_total g / total_weight g)%Qc.
  split; [done|]. split; [done|]. split.
  { rewrite weighted_mean_exact. by rewrite decide_False. }
  assert ((weighted_total g / total_weight g) * total_weight g = weighted_total g)%Qc
    as Hquot by (rewrite Qcmult_comm; by apply Qcmult_div_r).
  split.
  - apply (Qcmult_lt_0_le_reg_r _ _ (total_weight g) HT). rewrite Hquot.
    apply weighted_total_ge; [done|]. intros r Hr. by apply (min_value_le g).
  - apply (Qcmult_lt_0_le_reg_r _ _ (total_weight g) HT). rewrite Hquot.
    apply weighted_total_le; [done|]. intros r Hr. by apply (max_value_ge g).
Qed.

(** Scenario 1 in exact arithmetic: 28 and 32 with sample sizes 100 and 300. *)
Lemma weighted_mean_within_range_exact_sample :
  let g := [Obs 2015 "18 - 24" (Q2Qc 28) (Q2Qc 100);
            Obs 2015 "18 - 24" (Q2Qc 32) (Q2Qc 300)] in
  exists lo hi m : Qc,
    min_value g = Some lo /\ max_value g = Some hi /\
    weighted_mean (exact_row <$> g) = Some m /\
    (lo <= m)%Qc /\ (m <= hi)%Qc.
Proof.
  intros g. apply (weighted_mean_within_range_exact g).
  - intros r Hr. unfold g in Hr. rewrite !elem_of_cons, elem_of_nil in Hr.
    destruct Hr as [-> | [-> | []]]; by vm_compute.
  - exists (Obs 2015 "18 - 24" (Q2Qc 28) (Q2Qc 100)). split; [left | by vm_compute].
Defined.

(** C10, as the code behaves.  In binary64, multiplying the sample sizes 100
    and 300 of the values 30.1 and 33.3 by 10 changes the weighted mean (from
    32.5 to the float just below), so rescaling does not always preserve it. *)
Lemma weighted_mean_rescaled_binary64 :
  let g := [Obs 2015 "18 - 24" 30.1%float 100%float;
            Obs 2015 "18 - 24" 33.3%float 300%float] in
  weighted_mean g = 32.5%float /\
  weighted_mean (scale_weights 10%float g) = 32.49999999999999%float /\
  (weighted_mean (scale_weights 10%float g) <? weighted_mean g)%float = true /\
  ~ (forall (group : list (obs float float)) (c : float),
        (exists r, r ∈ group /\ (0 <? Sample_Size r)%float = true) ->
        (0 <? c)%float = true ->
        weighted_mean (scale_weights c group) = weighted_mean group).
Proof.
  intros g. split; [by vm_compute|]. split; [by vm_compute|].
  split; [by vm_compute|].
  intros Hall. specialize (Hall g 10%float).
  assert ((weighted_mean (scale_weights 10%float g) <? weighted_mean g)%float = true)
    as Hlt by by vm_compute.
  rewrite Hall in Hlt; [by vm_compute in Hlt | | reflexivity].
  exists (Obs 2015 "18 - 24" 30.1%float 100%float). split; [left | reflexivity].
Qed.

(** C10, amended.  In exact arithmetic, multiplying every weight of a group by
    the same positive factor leaves the weighted mean unchanged (undefined
    stays undefined). *)
Theorem weighted_mean_scale_invariant_exact (g : list (obs Qc Qc)) (c : Qc) :
  (0 < c)%Qc ->
  weighted_mean (scale_weights (Some c) (exact_row <$> g))
  = weighted_mean (exact_row <$> g).
Proof.
  intros Hc.
  assert (c <> 0%Qc) as Hcnz by (symmetry; by apply Qclt_not_eq).
  rewrite scale_weights_exact, !weighted_mean_exact.
  rewrite total_weight_scaled, weighted_total_scaled.
  destruct (decide (total_weight g = 0%Qc)) as [HT | HT].
  - rewrite HT, Qcmult_0_r. by rewrite decide_True.
  - rewrite decide_False.
    + f_equal. field. done.
    + intros [Hz | Hz]%Qcmult_integral; done.
Qed.

Lemma weighted_mean_scale_invariant_exact_sample :
  let g := [Obs 2015 "18 - 24" (Q2Qc (301 # 10)) (Q2Qc 100);
            Obs 2015 "18 - 24" (Q2Qc (333 # 10)) (Q2Qc 300)] in
  weighted_mean (scale_weights (Some (Q2Qc 10)) (exact_row <$> g))
  = weighted_mean (exact_row <$> g).
Proof.
  intros g. apply (weighted_mean_scale_invariant_exact g (Q2Qc 10)). by vm_compute.
Defined.

(** ** C3: the national trend *)



(** ** Further facts about the builders *)


(** Scenario 2: with "Less than $15,000" at 30.0 in 2011 and at 33.5 in 2015,
    the 2015 row has baseline 30.0 and growth 3.5. *)
Theorem income_growth_scenario_2 :
  df_inc_growth
    [Obs 2011 "Less than $15,000" 30%float (number 120%float);
     Obs 2015 "Less than $15,000" 33.5%float (number 150%float)]
  = [GrowthRow (Point 2011 "Less than $15,000" 30%float) 30%float 0%float;
     GrowthRow (Point 2015 "Less than $15,000" 33.5%float) 30%float 3.5%float].
Proof. by vm_compute. Qed.

(** ** The cleaning step and the groups it feeds *)

Lemma is_nan_nan : PrimFloat.is_nan PrimFloat.nan = true.
Proof. reflexivity. Qed.

(** X3.  The rows that reach the aggregator are exactly the raw rows whose
    [Sample_Size] cell is a number, with that number and the [Data_Value] both
    present; a row whose [Sample_Size] is text, or is missing, or whose
    [Data_Value] is missing, is left out. *)
Theorem clean_keeps_numeric_rows (df : list (obs float (cell float))) (r : obs float float) :
  r ∈ clean df <->
  exists (raw : obs float (cell float)) (x : float),
    raw ∈ df /\ Sample_Size raw = number x /\
    r = Obs (YearStart raw) (Stratification1 raw) (Data_Value raw) x /\
    PrimFloat.is_nan x = false /\ PrimFloat.is_nan (Data_Value raw) = false.
Proof.
  unfold clean, dropna, coerce_Sample_Size.
  rewrite list_elem_of_filter, list_elem_of_fmap. unfold notna_both.
  rewrite Is_true_true, andb_true_iff, !negb_true_iff. split.
  - intros [[Hw Hv] (raw & -> & Hraw)]. simpl in Hw, Hv.
    destruct (Sample_Size raw) as [x|s] eqn:Hcell; simpl in Hw.
    + by exists raw, x.
    + change (PrimFloat.is_nan PrimFloat.nan = false) in Hw.
      rewrite is_nan_nan in Hw. discriminate Hw.
  - intros (raw & x & Hraw & Hcell & -> & Hw & Hv). split; [done|].
    exists raw. split; [|done]. by rewrite Hcell.
Qed.

(** X4.  A group handed to [weighted_mean] by the builders holds only rows of
    its own (year, category) key, each with [Sample_Size] and [Data_Value]
    present: the callers establish what the aggregator relies on. *)
Theorem groups_are_clean (df : list (obs float (cell float))) (k : key)
    (r : obs float float) :
  r ∈ get_group k (clean df) ->
  obs_key r = k /\
  PrimFloat.is_nan (Sample_Size r) = false /\
  PrimFloat.is_nan (Data_Value r) = false.
Proof.
  intros [Hr Hk]%elem_of_get_group. split; [done|].
  apply clean_keeps_numeric_rows in Hr as (raw & x & _ & _ & -> & Hw & Hv).
  by simpl in *.
Qed.

Lemma groups_are_clean_sample :
  let df := [Obs 2015 "18 - 24" 28%float (number 100%float);
             Obs 2015 "18 - 24" 31%float (text "n/a");
             Obs 2015 "18 - 24" 32%float (number 300%float)] in
  let r := Obs 2015 "18 - 24" 32%float 300%float in
  obs_key r = (2015%Z, "18 - 24") /\
  PrimFloat.is_nan (Sample_Size r) = false /\
  PrimFloat.is_nan (Data_Value r) = false.
Proof.
  intros df r. apply (groups_are_clean df (2015%Z, "18 - 24") r).
  vm_compute. right. left.
Defined.

(** ** Groups partition the table *)

Section partition.
Context {A W : Type}.
Implicit Types (df : list (obs A W)) (ks : list key).



End partition.


(** ** Growth against the baseline, and the bars that show it *)

(** X2.  A merged row whose income band has an aggregated row in 2011 takes
    that row's rate as its baseline, and its growth is its own rate minus
    that baseline. *)
Theorem growth_is_difference_to_baseline
    (df_income_raw : list (obs float (cell float)))
    (row : growth_row float) (q : point float) :
  row ∈ df_inc_growth df_income_raw ->
  q ∈ df_inc_agg df_income_raw ->
  pt_year q = 2011%Z ->
  pt_category q = pt_category (g_point row) ->
  Base_2011 row = pt_rate q /\
  Growth row = (pt_rate (g_point row) - pt_rate q)%float.
Proof.
  intros Hrow Hq Hyear Hcat.
  apply elem_of_df_inc_growth in Hrow as (_ & Hgrowth & Hbase).
  assert (Base_2011 row = pt_rate q) as Hb.
  { destruct Hbase as [(q' & Hq' & Hy' & Hc' & ->) | [Hnone _]].
    - f_equal. apply (aggregate_key_inj (clean df_income_raw)); [done | done |].
      unfold point_key. by rewrite Hy', Hyear, Hc', Hcat.
    - by destruct (Hnone q). }
  split; [done|]. by rewrite Hgrowth, Hb.
Qed.

Lemma growth_is_difference_to_baseline_scenario :
  let df := [Obs 2011 "Less than $15,000" 30%float (number 120%float);
             Obs 2015 "Less than $15,000" 33.5%float (number 150%float)] in
  let row := GrowthRow (Point 2015 "Less than $15,000" 33.5%float) 30%float 3.5%float in
  let q := Point 2011 "Less than $15,000" 30%float in
  Base_2011 row = pt_rate q /\
  Growth row = (pt_rate (g_point row) - pt_rate q)%float.
Proof.
  intros df row q. apply (growth_is_difference_to_baseline df row q).
  - vm_compute. right. left.
  - vm_compute. left.
  - reflexivity.
  - reflexivity.
Defined.



(** ** The trend's layers under the selection *)



Lemma base_trend_years `{Number A} (df_map : list (map_row A)) :
  (base_trend df_map).*1 = remove_dups (m_YearStart <$> df_map).
Proof.
  unfold base_trend. rewrite <- list_fmap_compose.
  etrans; [|apply list_fmap_id]. by apply list_fmap_ext.
Qed.

(** With nothing hovered the trend shows its line only: every point has
    opacity 0, every label is the blank string, and no rule is drawn. *)
Lemma trend_idle_without_selection (df_map : list (map_row float)) :
  points None df_map = (fun pt => (pt, 0%nat)) <$> base_trend df_map /\
  trend_text None df_map = (fun pt : Z * float => (pt.1, blank)) <$> base_trend df_map /\
  rule None df_map = [].
Proof.
  split; [done|]. split; [done|].
  unfold rule.
  assert (filter (fun r : map_row float => selected None (m_YearStart r)) df_map = [])
    as -> by (apply elem_of_nil_inv; intros r [Hsel _]%list_elem_of_filter; done).
  done.
Qed.



(** ** The map, row by row *)

Section map_rows.
Context {A G : Type} (states : gmap Z G).
Implicit Types (df_map : list (map_row A)) (r : map_row A).

Opaque state_id_map.




Lemma geoshapes_ids df_map (hover_year : selection) (d : map_datum A G) :
  d ∈ geoshapes (bottom_map states df_map hover_year) ->
  exists i, state_id_map !! LocationAbbr (d_row d) = Some i /\ d_id d = Some i.
Proof.
  unfold geoshapes.
  intros [Hgeo (_ & Hid & Hlook & _)%elem_of_bottom_map]%list_elem_of_filter.
  rewrite Hlook in Hgeo. rewrite Hid in *.
  destruct (state_id_map !! LocationAbbr (d_row d)) as [i|]; [by exists i|].
  by destruct Hgeo.
Qed.
End map_rows.

(** The static table gives no identifier to two abbreviations. *)
Lemma state_id_map_inj (a b : string) (i : Z) :
  state_id_map !! a = Some i -> state_id_map !! b = Some i -> a = b.
Proof.
  assert (map_Forall (fun (a : string) (i : Z) =>
            map_Forall (fun (b : string) (j : Z) => i = j -> a = b) state_id_map)
            state_id_map) as Hinj
    by (apply (bool_decide_unpack _); by vm_compute).
  intros Ha Hb. by apply (Hinj a i Ha b i Hb).
Qed.



(** X9.  Two shapes of the map that carry the same identifier belong to the
    same region abbreviation: the static table never sends two abbreviations
    to one shape of the boundary data. *)
Theorem shapes_do_not_collide {G} (states : gmap Z G) (df_map : list (map_row float))
    (hover_year : selection) (d1 d2 : map_datum float G) :
  d1 ∈ geoshapes (bottom_map states df_map hover_year) ->
  d2 ∈ geoshapes (bottom_map states df_map hover_year) ->
  d_id d1 = d_id d2 ->
  LocationAbbr (d_row d1) = LocationAbbr (d_row d2).
Proof.
  intros (i1 & Ha1 & Hi1)%geoshapes_ids (i2 & Ha2 & Hi2)%geoshapes_ids Heq.
  rewrite Hi1, Hi2 in Heq. injection Heq as <-.
  by apply (state_id_map_inj _ _ i1).
Qed.

Lemma shapes_do_not_collide_sample :
  let states : gmap Z string :=
    list_to_map ((fun kv : string * Z => (kv.2, kv.1)) <$> map_to_list state_id_map) in
  let df_map :=
    [MapRow 2011 "AK" "Alaska" 25.5%float; MapRow 2011 "AK" "Alaska (revised)" 26%float] in
  let d1 := MapDatum (MapRow 2011 "AK" "Alaska" 25.5%float) (Some 2%Z) (Some "AK") in
  let d2 := MapDatum (MapRow 2011 "AK" "Alaska (revised)" 26%float) (Some 2%Z) (Some "AK") in
  LocationAbbr (d_row d1) = LocationAbbr (d_row d2).
Proof.
  intros states df_map d1 d2.
  apply (shapes_do_not_collide states df_map (Some 2011%Z) d1 d2).
  - vm_compute. left.
  - vm_compute. right. left.
  - reflexivity.
Defined.

(** ** binary64: a group without weight *)

Section zero_weight.
Local Open Scope float_scope.

Lemma is_zero_spec (x : float) :
  PrimFloat.is_zero x = true -> exists s, Prim2SF x = S754_zero s.
Proof.
  unfold PrimFloat.is_zero. rewrite FloatAxioms.eqb_spec.
  change (Prim2SF 0) with (S754_zero false).
  destruct (Prim2SF x) as [s| s| |s m e]; unfold SFeqb; simpl.
  - intros _. by exists s.
  - by destruct s.
  - done.
  - by destruct s.
Qed.

Lemma is_nan_false_zero (x : float) (s : bool) :
  Prim2SF x = S754_zero s -> PrimFloat.is_nan x = false.
Proof.
  intros Hx. destruct (PrimFloat.is_nan x) eqn:Hnan; [|done].
  apply is_nan_spec in Hnan. congruence.
Qed.

(** Zero plus a zero of either sign is zero. *)
Lemma add_zero_zero (x : float) (s : bool) :
  Prim2SF x = S754_zero s -> 0 + x = 0.
Proof.
  intros Hx. apply Prim2SF_inj. rewrite FloatAxioms.add_spec, Hx.
  change (Prim2SF 0) with (S754_zero false). by destruct s.
Qed.

(** Anything times a zero is a zero or missing. *)
Lemma mul_zero_r (x w : float) (s : bool) :
  Prim2SF w = S754_zero s ->
  PrimFloat.is_nan (x * w) = true \/ exists s', Prim2SF (x * w) = S754_zero s'.
Proof.
  intros Hw.
  assert (Prim2SF (x * w) = S754_nan \/ exists s', Prim2SF (x * w) = S754_zero s') as [Hn | Hz].
  { rewrite FloatAxioms.mul_spec, Hw. unfold SF64mul, SFmul.
    destruct (Prim2SF x) as [sx| sx| |sx m e]; eauto. }
  - left. by apply is_nan_spec.
  - by right.
Qed.

(** A column of zeros and missing entries sums to zero. *)
Lemma Series_sum_zeros (l : list float) :
  (forall x, x ∈ l -> PrimFloat.is_nan x = true \/ exists s, Prim2SF x = S754_zero s) ->
  Series_sum l = 0.
Proof.
  unfold Series_sum. cbn [nadd nzero isna binary64].
  induction l as [|x l IH]; intros Hl; [done|].
  cbn [List.filter].
  destruct (Hl x) as [Hnan | [s Hz]]; [left | |].
  - rewrite Hnan. cbn [negb]. apply IH. intros y Hy. apply Hl. by right.
  - rewrite (is_nan_false_zero x s Hz). cbn [negb fold_left].
    rewrite (add_zero_zero x s Hz). apply IH. intros y Hy. apply Hl. by right.
Qed.
End zero_weight.

(** X10.  In binary64, a group whose sample sizes are all zero (an empty group
    included) has a missing weighted mean, whatever its values: the division
    by a zero total gives NaN, neither an error nor a rate of zero. *)
Theorem weighted_mean_without_weight (group : list (obs float float)) :
  (forall r, r ∈ group -> PrimFloat.is_zero (Sample_Size r) = true) ->
  PrimFloat.is_nan (weighted_mean group) = true.
Proof.
  intros Hzero. unfold weighted_mean.
  rewrite (Series_sum_zeros (Sample_Size <$> group)).
  - rewrite (Series_sum_zeros (Series_mul _ _)); [reflexivity|].
    unfold Series_mul. intros p Hp.
    apply list_elem_of_lookup in Hp as [n Hn].
    apply lookup_zip_with_Some in Hn as (x & w & -> & _ & Hw).
    apply list_elem_of_lookup_2 in Hw.
    apply list_elem_of_fmap in Hw as (r & -> & Hr).
    destruct (is_zero_spec _ (Hzero r Hr)) as [s Hs].
    by apply (mul_zero_r x _ s).
  - intros w (r & -> & Hr)%list_elem_of_fmap. right.
    by apply is_zero_spec, Hzero.
Qed.

Lemma weighted_mean_without_weight_sample :
  PrimFloat.is_nan
    (weighted_mean [Obs 2015 "18 - 24" 28%float 0%float;
                    Obs 2015 "18 - 24" 32%float 0%float]) = true.
Proof.
  apply weighted_mean_without_weight.
  intros r Hr. rewrite !elem_of_cons, elem_of_nil in Hr.
  destruct Hr as [-> | [-> | []]]; reflexivity.
Defined.

(** ** Exact arithmetic: order of rows, and equal sample sizes *)

Section exact_order.
Local Open Scope Qc_scope.
Implicit Types (g : list (obs Qc Qc)).

Lemma Qc_sum_Permutation (l l' : list Qc) : l ≡ₚ l' -> Qc_sum l = Qc_sum l'.
Proof.
  unfold Qc_sum. induction 1 as [|x l l' _ IH|x y l|l l' l'' _ IH1 _ IH2]; simpl.
  - done.
  - by rewrite IH.
  - ring.
  - by rewrite IH1.
Qed.

Lemma weighted_total_equal_weights g (w : Qc) :
  (forall r, r ∈ g -> Sample_Size r = w) ->
  weighted_total g = w * Qc_sum (Data_Value <$> g).
Proof.
  induction g as [|r g IH]; intros Hw.
  - symmetry. apply Qcmult_0_r.
  - rewrite weighted_total_cons, fmap_cons.
    rewrite IH by (intros r' Hr'; apply Hw; by right).
    rewrite (Hw r) by left. unfold Qc_sum. simpl. ring.
Qed.

Lemma total_weight_equal_weights g (w : Qc) :
  (forall r, r ∈ g -> Sample_Size r = w) ->
  total_weight g = w * Qc_of_Z (Z.of_nat (length g)).
Proof.
  induction g as [|r g IH]; intros Hw.
  - symmetry. apply Qcmult_0_r.
  - rewrite total_weight_cons.
    rewrite IH by (intros r' Hr'; apply Hw; by right).
    rewrite (Hw r) by left.
    change (length (r :: g)) with (S (length g)). rewrite Qc_of_count_S. ring.
Qed.
End exact_order.

(** X11.  In exact arithmetic the weighted mean does not depend on the order
    of the rows of a group. *)
Theorem weighted_mean_reorder_exact (g g' : list (obs Qc Qc)) :
  g ≡ₚ g' ->
  weighted_mean (exact_row <$> g) = weighted_mean (exact_row <$> g').
Proof.
  intros Hperm. rewrite !weighted_mean_exact.
  assert (total_weight g = total_weight g') as ->
    by (apply Qc_sum_Permutation; by apply fmap_Permutation).
  assert (weighted_total g = weighted_total g') as ->
    by (apply Qc_sum_Permutation; by apply fmap_Permutation).
  done.
Qed.

Lemma weighted_mean_reorder_exact_sample :
  let r1 := Obs 2015 "18 - 24" (Q2Qc 28) (Q2Qc 100) in
  let r2 := Obs 2015 "18 - 24" (Q2Qc 32) (Q2Qc 300) in
  let r3 := Obs 2015 "18 - 24" (Q2Qc (301 # 10)) (Q2Qc 250) in
  weighted_mean (exact_row <$> [r1; r2; r3]) = weighted_mean (exact_row <$> [r3; r1; r2]).
Proof.
  intros r1 r2 r3. apply (weighted_mean_reorder_exact [r1; r2; r3] [r3; r1; r2]).
  change [r3; r1; r2] with ([r3] ++ [r1; r2]).
  change [r1; r2; r3] with ([r1; r2] ++ [r3]).
  apply Permutation_app_comm.
Defined.

(** X12.  In exact arithmetic, when every row of a non-empty group has the
    same non-zero sample size, the weighted mean is the plain mean of the
    values, the one the trend view takes. *)
Theorem weighted_mean_equal_weights_exact (g : list (obs Qc Qc)) (w : Qc) :
  g <> [] -> w <> 0%Qc ->
  (forall r, r ∈ g -> Sample_Size r = w) ->
  weighted_mean (exact_row <$> g) = vega_mean (Some <$> (Data_Value <$> g)).
Proof.
  intros Hne Hw Hall.
  assert (Qc_of_Z (Z.of_nat (length g)) <> 0%Qc) as Hn.
  { destruct g as [|r g]; [done|]. apply Qc_of_count_S_nonzero. }
  rewrite vega_mean_exact by (by destruct g).
  rewrite weighted_mean_exact, length_fmap.
  rewrite (total_weight_equal_weights g w Hall), (weighted_total_equal_weights g w Hall).
  rewrite decide_False.
  - f_equal. field. done.
  - intros [?|?]%Qcmult_integral; done.
Qed.

Lemma weighted_mean_equal_weights_exact_sample :
  let g := [Obs 2015 "18 - 24" (Q2Qc 28) (Q2Qc 200);
            Obs 2015 "18 - 24" (Q2Qc 32) (Q2Qc 200);
            Obs 2015 "18 - 24" (Q2Qc (301 # 10)) (Q2Qc 200)] in
  weighted_mean (exact_row <$> g) = vega_mean (Some <$> (Data_Value <$> g)).
Proof.
  intros g. apply (weighted_mean_equal_weights_exact g (Q2Qc 200)).
  - discriminate.
  - by vm_compute.
  - intros r Hr. unfold g in Hr. rewrite !elem_of_cons, elem_of_nil in Hr.
    destruct Hr as [-> | [-> | [-> | []]]]; reflexivity.
Defined.
